(** * Undo/redo history of MyFormComponent

    A shallow embedding of [src/app/components/my-form/my-form.component.ts]
    and the properties of its undo/redo state machine.

    The component keeps four fields next to its reactive form: the list of
    recorded snapshots, the index of the newest one, a signed undo/redo
    counter and a one-shot flag.  Its methods mutate these fields in place
    and call into the form, whose [setValue] synchronously re-enters
    [onInputChange] through the [valueChanges] subscription. *)

From Stdlib Require Import String ZArith List Bool Lia.
Import ListNotations.

Local Open Scope Z_scope.

(** ** Form values *)

(** The raw value of the form: one field per control created by
    [initializeForm].  The interface [IFormData] of the source also declares
    [email], for which the form has no control, so no snapshot carries it.
    The three text controls start at [null], hence [option]. *)
Record IFormData : Type := mkIFormData {
  firstName : option string;
  lastName  : option string;
  comment   : option string;
  age       : Z;
  agree     : bool;
  gender    : bool;
  birthday  : string;
  country   : string
}.

(** The initial control values written in [initializeForm]. *)
Definition initialControls : IFormData :=
  {| firstName := None; lastName := None; comment := None; age := 0;
     agree := false; gender := false; birthday := EmptyString; country := EmptyString |}.

(** ** The reactive form

    A [FormGroup] object: its current raw value, and whether the
    component's arrow function [() => this.onInputChange()] is subscribed to
    the [valueChanges] stream of this very object.  [ngOnInit] subscribes
    to the group it has just created; a group created later by
    [initializeForm] is a new object with no subscriber. *)
Record FormGroup : Type := mkFormGroup {
  rawValue   : IFormData;
  subscribed : bool
}.

(** [new FormGroup({...})]. *)
Definition newFormGroup (v : IFormData) : FormGroup :=
  {| rawValue := v; subscribed := false |}.

Definition getRawValue (f : FormGroup) : IFormData := rawValue f.

(** ** Component state *)

Record MyFormComponent : Type := mkComponent {
  formStateHistory    : list IFormData;
  currentHistoryIndex : Z;
  undoRedoCounter     : Z;
  isLastRedoAction    : bool;
  form                : FormGroup
}.

(** Field initialisers of the class.  The initialiser of [form],
    [new FormGroup({})], builds a group without any control: it holds no
    form value and is not one of the groups of [FormGroup], which are those
    with the eight controls of [initializeForm].  The parameter [form0]
    stands for it.  [ngOnInit] replaces the field before any method reads
    it, so nothing below depends on [form0]. *)
Definition newComponent (form0 : FormGroup) : MyFormComponent :=
  {| formStateHistory := [];
     currentHistoryIndex := -1;
     undoRedoCounter := 0;
     isLastRedoAction := false;
     form := form0 |}.

Definition set_formStateHistory (h : list IFormData) (this : MyFormComponent) :=
  mkComponent h (currentHistoryIndex this) (undoRedoCounter this)
              (isLastRedoAction this) (form this).

Definition set_currentHistoryIndex (i : Z) (this : MyFormComponent) :=
  mkComponent (formStateHistory this) i (undoRedoCounter this)
              (isLastRedoAction this) (form this).

Definition set_undoRedoCounter (n : Z) (this : MyFormComponent) :=
  mkComponent (formStateHistory this) (currentHistoryIndex this) n
              (isLastRedoAction this) (form this).

Definition set_isLastRedoAction (b : bool) (this : MyFormComponent) :=
  mkComponent (formStateHistory this) (currentHistoryIndex this)
              (undoRedoCounter this) b (form this).

Definition set_form (f : FormGroup) (this : MyFormComponent) :=
  mkComponent (formStateHistory this) (currentHistoryIndex this)
              (undoRedoCounter this) (isLastRedoAction this) f.

(** ** JavaScript arrays *)

(** [a[i]]: [undefined] (here [None]) for an index outside [0 .. length-1]. *)
Definition array_get {A : Type} (a : list A) (i : Z) : option A :=
  if i <? 0 then None else nth_error a (Z.to_nat i).

(** [a.push(x)] and [a.pop()], as used for their effect on the array. *)
Definition array_push {A : Type} (a : list A) (x : A) : list A := a ++ [x].
Definition array_pop {A : Type} (a : list A) : list A := removelast a.

Definition in_bounds {A : Type} (a : list A) (i : Z) : Prop :=
  0 <= i < Z.of_nat (length a).

(** ** Methods: state and exceptions

    A method runs on the component and either completes or throws; the
    mutations made before a throw stay. *)
Inductive completion (A : Type) : Type :=
| Normal (a : A)
| TypeError.
Arguments Normal {A} a.
Arguments TypeError {A}.

Definition Method (A : Type) : Type :=
  MyFormComponent -> completion A * MyFormComponent.

Definition ret {A : Type} (a : A) : Method A := fun this => (Normal a, this).

Definition bind {A B : Type} (m : Method A) (k : A -> Method B) : Method B :=
  fun this =>
    match m this with
    | (Normal a, this') => k a this'
    | (TypeError, this') => (TypeError, this')
    end.

Definition get : Method MyFormComponent := fun this => (Normal this, this).

Definition modify (f : MyFormComponent -> MyFormComponent) : Method unit :=
  fun this => (Normal tt, f this).

Definition throw {A : Type} : Method A := fun this => (TypeError, this).

Definition when (b : bool) (m : Method unit) : Method unit :=
  if b then m else ret tt.

Declare Scope method_scope.
Delimit Scope method_scope with method.
Notation "x <- m ;; k" := (bind m (fun x => k))
  (at level 61, m at next level, right associativity) : method_scope.
Notation "m ;; k" := (bind m (fun _ => k))
  (at level 61, right associativity) : method_scope.
Local Open Scope method_scope.

Definition completed {A : Type} (r : completion A * MyFormComponent) : bool :=
  match fst r with Normal _ => true | TypeError => false end.

(** The component a method leaves behind, whether it completed or threw. *)
Definition after {A : Type} (m : Method A) (this : MyFormComponent)
  : MyFormComponent := snd (m this).

(** ** The methods of the component *)

Definition initializeForm : Method unit :=
  modify (set_form (newFormGroup initialControls)).

(** [this.form.valueChanges.subscribe(() => this.onInputChange())]. *)
Definition subscribeValueChanges : Method unit :=
  modify (fun this => set_form (mkFormGroup (rawValue (form this)) true) this).

Definition ngOnInit : Method unit :=
  initializeForm ;; subscribeValueChanges.

Definition onInputChange : Method unit :=
  this <- get ;;
  let currentState := getRawValue (form this) in
  when (undoRedoCounter this <=? 0)
    (modify (fun this =>
       set_formStateHistory (array_push (formStateHistory this) currentState) this) ;;
     modify (fun this =>
       set_currentHistoryIndex (currentHistoryIndex this + 1) this)) ;;
  this <- get ;;
  when ((undoRedoCounter this =? 0) && Bool.eqb (isLastRedoAction this) true)
    (modify (set_isLastRedoAction false) ;;
     modify (fun this =>
       set_formStateHistory (array_pop (formStateHistory this)) this) ;;
     modify (fun this =>
       set_currentHistoryIndex (currentHistoryIndex this - 1) this)).

(** The [valueChanges] stream of the current group emits: the subscriber,
    if this group has one, runs before the emitting call returns. *)
Definition emitValueChanges : Method unit :=
  this <- get ;;
  when (subscribed (form this)) onInputChange.

(** [this.form.setValue(v)].  Angular first checks that [v] has a value for
    every control, which dereferences [v]: on [undefined] this throws before
    anything is written.  Otherwise the controls take the values of [v] and
    the group emits on [valueChanges], also when nothing changed. *)
Definition form_setValue (v : option IFormData) : Method unit :=
  match v with
  | None => throw
  | Some d =>
      modify (fun this =>
        set_form (mkFormGroup d (subscribed (form this))) this) ;;
      emitValueChanges
  end.

Definition undo : Method unit :=
  modify (fun this => set_undoRedoCounter (undoRedoCounter this + 1) this) ;;
  this <- get ;;
  if undoRedoCounter this <=? currentHistoryIndex this
  then form_setValue
         (array_get (formStateHistory this)
                    (currentHistoryIndex this - undoRedoCounter this))
  else initializeForm.

Definition redo : Method unit :=
  modify (fun this => set_undoRedoCounter (undoRedoCounter this - 1) this) ;;
  this <- get ;;
  if undoRedoCounter this >? 0
  then form_setValue
         (array_get (formStateHistory this)
                    (currentHistoryIndex this - undoRedoCounter this))
  else
    modify (set_isLastRedoAction true) ;;
    this <- get ;;
    form_setValue (array_get (formStateHistory this) (currentHistoryIndex this)).

(** The index of [formStateHistory] that a call of [undo] or [redo] reads in
    a given component, if it reads one. *)
Definition undo_read_index (this : MyFormComponent) : option Z :=
  let n := undoRedoCounter this + 1 in
  if n <=? currentHistoryIndex this
  then Some (currentHistoryIndex this - n) else None.

Definition redo_read_index (this : MyFormComponent) : option Z :=
  let n := undoRedoCounter this - 1 in
  if n >? 0 then Some (currentHistoryIndex this - n)
  else Some (currentHistoryIndex this).

(** ** The environment *)

(** The user edits a control, after which the form holds [d]: the group
    emits on [valueChanges]. *)
Definition userEdit (d : IFormData) : Method unit :=
  modify (fun this => set_form (mkFormGroup d (subscribed (form this))) this) ;;
  emitValueChanges.

(** The change handler called with the form holding [d], whoever calls it. *)
Definition recordChange (d : IFormData) : Method unit :=
  modify (fun this => set_form (mkFormGroup d (subscribed (form this))) this) ;;
  onInputChange.

(** The component once Angular has constructed and initialised it: the
    field initialisers have run, then [ngOnInit], which has put the group of
    [initializeForm] in [form] and subscribed to it. *)
Definition mounted : MyFormComponent :=
  {| formStateHistory := [];
     currentHistoryIndex := -1;
     undoRedoCounter := 0;
     isLastRedoAction := false;
     form := mkFormGroup initialControls true |}.

Inductive Op : Type :=
| OpEdit (d : IFormData)
| OpRecordChange (d : IFormData)
| OpUndo
| OpRedo.

Definition exec (o : Op) : Method unit :=
  match o with
  | OpEdit d => userEdit d
  | OpRecordChange d => recordChange d
  | OpUndo => undo
  | OpRedo => redo
  end.

(** A sequence of calls.  An exception thrown by one call ends that call
    only: the component stays alive for the next event. *)
Fixpoint run (ops : list Op) (this : MyFormComponent) : MyFormComponent :=
  match ops with
  | [] => this
  | o :: ops' => run ops' (after (exec o) this)
  end.

(** [k] recorded edits: the user brings the form to each value of [ds] in
    turn, starting from the freshly mounted component. *)
Definition afterEdits (ds : list IFormData) : MyFormComponent :=
  run (map OpEdit ds) mounted.

(** [n] consecutive calls of a method. *)
Fixpoint times (n : nat) (m : Method unit) (this : MyFormComponent)
  : MyFormComponent :=
  match n with
  | O => this
  | S n' => times n' m (after m this)
  end.

(** What a call of [undo] or [redo] hands back to the form: the methods
    return nothing, the snapshot they select is the value the form holds
    when they are done. *)
Definition shown (this : MyFormComponent) : IFormData :=
  getRawValue (form this).

(** Sample snapshots. *)
Definition snapA : IFormData :=
  {| firstName := Some "A"%string; lastName := None; comment := None; age := 0;
     agree := false; gender := false; birthday := EmptyString; country := EmptyString |}.
Definition snapB : IFormData :=
  {| firstName := Some "A"%string; lastName := Some "B"%string; comment := None; age := 0;
     agree := false; gender := false; birthday := EmptyString; country := EmptyString |}.
Definition snapC : IFormData :=
  {| firstName := Some "A"%string; lastName := Some "B"%string; comment := Some "C"%string; age := 3;
     agree := true; gender := false; birthday := EmptyString; country := EmptyString |}.


(** ** Invariants of the four fields *)

(** The cursor is always the index of the last array element: [push] and
    [currentHistoryIndex++] come together, and so do [pop] and
    [currentHistoryIndex--], the latter pair only right after the former. *)
Definition cursor_at_end (this : MyFormComponent) : Prop :=
  currentHistoryIndex this = Z.of_nat (length (formStateHistory this)) - 1.

(** The bound of the undo counter. *)
Definition counter_within (this : MyFormComponent) : Prop :=
  undoRedoCounter this <= currentHistoryIndex this + 1.

(** A call sequence in which [undo] is only called while the counter has
    not passed the cursor, as a caller that disables the button would do. *)
Definition undo_allowed (this : MyFormComponent) : bool :=
  undoRedoCounter this <=? currentHistoryIndex this.

Fixpoint undo_guarded (ops : list Op) (this : MyFormComponent) : bool :=
  match ops with
  | [] => true
  | o :: ops' =>
      (match o with OpUndo => undo_allowed this | _ => true end)
      && undo_guarded ops' (after (exec o) this)
  end.

(** ** Numbering of edits

    The edits are counted from one: edit [m] of [ds] is its [m]-th
    element, and there is no edit [0]. *)
Definition snapshot_at_edit (ds : list IFormData) (m : nat) : option IFormData :=
  match m with
  | O => None
  | S m' => nth_error ds m'
  end.

(** ** Counting calls *)

Definition is_undo (o : Op) : bool :=
  match o with OpUndo => true | _ => false end.

Definition is_redo (o : Op) : bool :=
  match o with OpRedo => true | _ => false end.

(** A call of the handler that does not come through the form. *)
Definition is_direct (o : Op) : bool :=
  match o with OpRecordChange _ => true | _ => false end.

Definition calls (p : Op -> bool) (ops : list Op) : Z :=
  Z.of_nat (length (filter p ops)).

(** ** Unfolding the methods *)

Ltac unfold_methods :=
  unfold after, completed, exec, userEdit, recordChange, undo, redo,
    form_setValue, emitValueChanges, onInputChange, initializeForm,
    subscribeValueChanges, when, bind, ret, get, modify, throw,
    set_formStateHistory, set_currentHistoryIndex, set_undoRedoCounter,
    set_isLastRedoAction, set_form, newFormGroup, getRawValue, shown,
    array_push, array_pop in *; cbn in *.

Ltac split_tests :=
  repeat match goal with
  | |- context [ ?a <=? ?b ] => destruct (Z.leb_spec a b); cbn
  | |- context [ ?a >? ?b ] => rewrite (Z.gtb_ltb a b)
  | |- context [ ?a <? ?b ] => destruct (Z.ltb_spec a b); cbn
  | |- context [ ?a =? ?b ] => destruct (Z.eqb_spec a b); cbn
  end.

Ltac case_step :=
  match goal with
  | |- context [ ?a <=? ?b ] => destruct (Z.leb_spec a b)
  | |- context [ ?a >? ?b ] => rewrite (Z.gtb_ltb a b)
  | |- context [ ?a <? ?b ] => destruct (Z.ltb_spec a b)
  | |- context [ ?a =? ?b ] => destruct (Z.eqb_spec a b)
  | |- context [ match array_get ?a ?i with _ => _ end ] =>
      destruct (array_get a i) eqn:?
  | |- context [ if ?b then _ else _ ] => is_var b; destruct b
  | |- context [ Bool.eqb ?b true ] => is_var b; destruct b
  end; cbn in *.

Ltac by_cases := repeat case_step.

Ltac fields :=
  cbn [formStateHistory currentHistoryIndex undoRedoCounter isLastRedoAction
       form rawValue subscribed fst snd] in *.

(** * Lemmas *)

(** ** Mounting *)

Lemma ngOnInit_mounts (form0 : FormGroup) :
  ngOnInit (newComponent form0) = (Normal tt, mounted).
Proof. reflexivity. Qed.

Lemma ngOnInit_replaces_form (this : MyFormComponent) :
  ngOnInit this =
  (Normal tt, set_form (mkFormGroup initialControls true) this).
Proof. destruct this. reflexivity. Qed.

(** ** The change handler, case by case *)

Lemma onInputChange_absorbed (this : MyFormComponent) :
  0 < undoRedoCounter this ->
  onInputChange this = (Normal tt, this).
Proof.
  intros Hn. destruct this as [h i n b f]. unfold_methods.
  split_tests; try lia. reflexivity.
Qed.

Lemma onInputChange_append (this : MyFormComponent) :
  undoRedoCounter this <= 0 ->
  (undoRedoCounter this = 0 -> isLastRedoAction this = false) ->
  onInputChange this =
  (Normal tt,
   mkComponent (formStateHistory this ++ [rawValue (form this)])
               (currentHistoryIndex this + 1) (undoRedoCounter this)
               (isLastRedoAction this) (form this)).
Proof.
  intros Hn Hb. destruct this as [h i n b f]. unfold_methods.
  split_tests; try lia; try reflexivity.
  rewrite Hb by assumption. reflexivity.
Qed.

Lemma onInputChange_discard (this : MyFormComponent) :
  undoRedoCounter this = 0 ->
  isLastRedoAction this = true ->
  onInputChange this =
  (Normal tt,
   mkComponent (formStateHistory this) (currentHistoryIndex this + 1 - 1) 0
               false (form this)).
Proof.
  intros Hn Hb. destruct this as [h i n b f]. cbn in Hn, Hb. subst.
  unfold_methods. rewrite removelast_last. reflexivity.
Qed.

Lemma onInputChange_completes (this : MyFormComponent) :
  fst (onInputChange this) = Normal tt.
Proof.
  destruct this as [h i n b f]. unfold_methods.
  split_tests; destruct b; reflexivity.
Qed.

(** ** Arrays *)

Lemma array_get_in_bounds {A : Type} (a : list A) (i : Z) (d : A) :
  in_bounds a i -> array_get a i = Some (nth (Z.to_nat i) a d).
Proof.
  intros [Hlo Hhi]. unfold array_get.
  destruct (Z.ltb_spec i 0); [lia|].
  apply nth_error_nth'. lia.
Qed.

Lemma array_get_out_of_bounds {A : Type} (a : list A) (i : Z) :
  ~ in_bounds a i -> array_get a i = None.
Proof.
  intros Hout. unfold array_get, in_bounds in *.
  destruct (Z.ltb_spec i 0); [reflexivity|].
  apply nth_error_None. lia.
Qed.

Lemma array_get_some_in_bounds {A : Type} (a : list A) (i : Z) (x : A) :
  array_get a i = Some x -> in_bounds a i.
Proof.
  unfold array_get, in_bounds. destruct (Z.ltb_spec i 0); [discriminate|].
  intros Hx. assert (Hlt : (Z.to_nat i < length a)%nat).
  { apply nth_error_Some. rewrite Hx. discriminate. }
  lia.
Qed.

Lemma array_get_last {A : Type} (a : list A) (d : A) :
  a <> [] -> array_get a (Z.of_nat (length a) - 1) = Some (last a d).
Proof.
  intros Hne. destruct (exists_last Hne) as [a' [x ->]].
  rewrite last_last, length_app. cbn [length].
  unfold array_get. destruct (Z.ltb_spec (Z.of_nat (length a' + 1) - 1) 0); [lia|].
  replace (Z.to_nat (Z.of_nat (length a' + 1) - 1)) with (length a') by lia.
  rewrite nth_error_app2 by lia. rewrite Nat.sub_diag. reflexivity.
Qed.

Lemma last_cons_default {A : Type} (l : list A) (x d d' : A) :
  last (x :: l) d = last (x :: l) d'.
Proof.
  revert x. induction l as [|y l IH]; intros x; [reflexivity|].
  change (last (y :: l) d = last (y :: l) d'). apply IH.
Qed.

(** ** Recorded edits *)

Lemma userEdit_records (d : IFormData) (this : MyFormComponent) :
  undoRedoCounter this = 0 ->
  isLastRedoAction this = false ->
  subscribed (form this) = true ->
  userEdit d this =
  (Normal tt,
   mkComponent (formStateHistory this ++ [d]) (currentHistoryIndex this + 1)
               0 false (mkFormGroup d true)).
Proof.
  intros Hn Hb Hs. destruct this as [h i n b [v s]]. cbn in Hn, Hb, Hs. subst.
  reflexivity.
Qed.

Lemma run_edits (ds : list IFormData) :
  forall this : MyFormComponent,
    undoRedoCounter this = 0 ->
    isLastRedoAction this = false ->
    subscribed (form this) = true ->
    run (map OpEdit ds) this =
    mkComponent (formStateHistory this ++ ds)
                (currentHistoryIndex this + Z.of_nat (length ds)) 0 false
                (mkFormGroup (last ds (rawValue (form this))) true).
Proof.
  induction ds as [|d ds IH]; intros this Hn Hb Hs.
  - destruct this as [h i n b [v s]]. cbn in *. subst.
    rewrite app_nil_r, Z.add_0_r. reflexivity.
  - cbn [map run exec]. unfold after at 1.
    rewrite (userEdit_records d this Hn Hb Hs). cbn [snd].
    rewrite IH by reflexivity. cbn [formStateHistory currentHistoryIndex form rawValue].
    rewrite <- app_assoc. cbn [app length].
    f_equal; [lia|]. f_equal.
    destruct ds as [|d' ds]; [reflexivity|].
    change (last (d :: d' :: ds) (rawValue (form this)))
      with (last (d' :: ds) (rawValue (form this))).
    apply last_cons_default.
Qed.

Lemma afterEdits_eq (ds : list IFormData) :
  afterEdits ds =
  mkComponent ds (Z.of_nat (length ds) - 1) 0 false
              (mkFormGroup (last ds initialControls) true).
Proof.
  unfold afterEdits. rewrite run_edits by reflexivity.
  cbn [mounted formStateHistory currentHistoryIndex form rawValue app].
  change (formStateHistory mounted) with (@nil IFormData).
  change (currentHistoryIndex mounted) with (-1).
  change (rawValue (form mounted)) with initialControls.
  cbn [app]. f_equal. lia.
Qed.

(** ** Undo and redo, case by case *)

Lemma undo_exhausted (this : MyFormComponent) :
  currentHistoryIndex this < undoRedoCounter this + 1 ->
  undo this =
  (Normal tt,
   mkComponent (formStateHistory this) (currentHistoryIndex this)
               (undoRedoCounter this + 1) (isLastRedoAction this)
               (newFormGroup initialControls)).
Proof.
  intros Hx. destruct this as [h i n b f]. unfold_methods.
  split_tests; try lia. reflexivity.
Qed.

Lemma undo_back (this : MyFormComponent) (x : IFormData) :
  0 <= undoRedoCounter this ->
  undoRedoCounter this + 1 <= currentHistoryIndex this ->
  array_get (formStateHistory this)
            (currentHistoryIndex this - (undoRedoCounter this + 1)) = Some x ->
  undo this =
  (Normal tt,
   mkComponent (formStateHistory this) (currentHistoryIndex this)
               (undoRedoCounter this + 1) (isLastRedoAction this)
               (mkFormGroup x (subscribed (form this)))).
Proof.
  intros Hn Hi Hx. destruct this as [h i n b [v s]]. unfold_methods.
  destruct (Z.leb_spec (n + 1) i); [|lia]. rewrite Hx. cbn.
  destruct s; cbn; [|reflexivity].
  split_tests; try lia. reflexivity.
Qed.

Lemma undo_throws (this : MyFormComponent) :
  undoRedoCounter this + 1 <= currentHistoryIndex this ->
  array_get (formStateHistory this)
            (currentHistoryIndex this - (undoRedoCounter this + 1)) = None ->
  undo this = (TypeError, set_undoRedoCounter (undoRedoCounter this + 1) this).
Proof.
  intros Hi Hx. destruct this as [h i n b f]. unfold_methods.
  destruct (Z.leb_spec (n + 1) i); [|lia]. rewrite Hx. reflexivity.
Qed.

Lemma redo_forward (this : MyFormComponent) (x : IFormData) :
  1 < undoRedoCounter this ->
  array_get (formStateHistory this)
            (currentHistoryIndex this - (undoRedoCounter this - 1)) = Some x ->
  redo this =
  (Normal tt,
   mkComponent (formStateHistory this) (currentHistoryIndex this)
               (undoRedoCounter this - 1) (isLastRedoAction this)
               (mkFormGroup x (subscribed (form this)))).
Proof.
  intros Hn Hx. destruct this as [h i n b [v s]]. unfold_methods.
  rewrite Z.gtb_ltb. destruct (Z.ltb_spec 0 (n - 1)); [|lia]. rewrite Hx. cbn.
  destruct s; cbn; [|reflexivity].
  split_tests; try lia. reflexivity.
Qed.

Lemma redo_to_latest (this : MyFormComponent) (x : IFormData) :
  undoRedoCounter this = 1 ->
  subscribed (form this) = true ->
  array_get (formStateHistory this) (currentHistoryIndex this) = Some x ->
  redo this =
  (Normal tt,
   mkComponent (formStateHistory this) (currentHistoryIndex this + 1 - 1) 0
               false (mkFormGroup x true)).
Proof.
  intros Hn Hs Hx. destruct this as [h i n b [v s]]. cbn in Hn, Hs, Hx. subst.
  unfold_methods. rewrite Hx. cbn. rewrite removelast_last. reflexivity.
Qed.

Lemma redo_past_latest (this : MyFormComponent) (x : IFormData) :
  undoRedoCounter this <= 0 ->
  subscribed (form this) = true ->
  array_get (formStateHistory this) (currentHistoryIndex this) = Some x ->
  redo this =
  (Normal tt,
   mkComponent (formStateHistory this ++ [x]) (currentHistoryIndex this + 1)
               (undoRedoCounter this - 1) true (mkFormGroup x true)).
Proof.
  intros Hn Hs Hx. destruct this as [h i n b [v s]]. cbn in Hn, Hs, Hx. subst.
  unfold_methods.
  rewrite Z.gtb_ltb. destruct (Z.ltb_spec 0 (n - 1)); [lia|]. cbn. rewrite Hx. cbn.
  split_tests; try lia. reflexivity.
Qed.

Lemma redo_unsubscribed (this : MyFormComponent) (x : IFormData) :
  undoRedoCounter this <= 1 ->
  subscribed (form this) = false ->
  array_get (formStateHistory this) (currentHistoryIndex this) = Some x ->
  redo this =
  (Normal tt,
   mkComponent (formStateHistory this) (currentHistoryIndex this)
               (undoRedoCounter this - 1) true (mkFormGroup x false)).
Proof.
  intros Hn Hs Hx. destruct this as [h i n b [v s]]. cbn in Hn, Hs, Hx. subst.
  unfold_methods.
  rewrite Z.gtb_ltb. destruct (Z.ltb_spec 0 (n - 1)); [lia|]. cbn. rewrite Hx.
  reflexivity.
Qed.

(** ** The invariants are kept *)

Lemma mounted_cursor_at_end : cursor_at_end mounted.
Proof. reflexivity. Qed.

Lemma exec_cursor_at_end (o : Op) (this : MyFormComponent) :
  cursor_at_end this -> cursor_at_end (after (exec o) this).
Proof.
  unfold cursor_at_end. destruct this as [h i n b [v s]]. cbn. intros Hi.
  destruct o; unfold_methods; by_cases;
    rewrite ?removelast_last, ?length_app; cbn [length]; lia.
Qed.

Lemma run_cursor_at_end (ops : list Op) :
  forall this, cursor_at_end this -> cursor_at_end (run ops this).
Proof.
  induction ops as [|o ops IH]; intros this Hi; [exact Hi|].
  cbn [run]. apply IH, exec_cursor_at_end, Hi.
Qed.

Lemma exec_counter_within (o : Op) (this : MyFormComponent) :
  (match o with OpUndo => undo_allowed this | _ => true end) = true ->
  counter_within this -> counter_within (after (exec o) this).
Proof.
  unfold counter_within, undo_allowed. destruct this as [h i n b [v s]]. cbn.
  intros Hg Hn.
  destruct o; try (apply Z.leb_le in Hg); unfold_methods; by_cases; lia.
Qed.

Lemma run_counter_within (ops : list Op) :
  forall this,
    undo_guarded ops this = true ->
    counter_within this -> counter_within (run ops this).
Proof.
  induction ops as [|o ops IH]; intros this Hg Hn; [exact Hn|].
  cbn [run undo_guarded] in *. apply andb_prop in Hg as [Ho Hg].
  apply IH; [exact Hg|]. apply exec_counter_within; assumption.
Qed.

(** ** Consecutive undos *)

Lemma times_succ_last (n : nat) (m : Method unit) :
  forall this, times (S n) m this = after m (times n m this).
Proof.
  induction n as [|n IH]; intros this; [reflexivity|].
  change (times (S (S n)) m this) with (times (S n) m (after m this)).
  rewrite IH. reflexivity.
Qed.

Lemma nth_last {A : Type} (l : list A) (d : A) :
  nth (length l - 1) l d = last l d.
Proof.
  induction l as [|x l IH]; [reflexivity|].
  destruct l as [|y l]; [reflexivity|].
  cbn [length] in *. rewrite Nat.sub_succ, Nat.sub_0_r in *.
  change (nth (S (length l)) (x :: y :: l) d) with (nth (length l) (y :: l) d).
  rewrite IH. reflexivity.
Qed.

(** After [n < k] undos on [k] recorded edits the form shows the entry at
    index [k - 1 - n], and nothing else has moved. *)
Lemma undos_within (ds : list IFormData) (n : nat) :
  (n < length ds)%nat ->
  times n undo (afterEdits ds) =
  mkComponent ds (Z.of_nat (length ds) - 1) (Z.of_nat n) false
              (mkFormGroup (nth (length ds - 1 - n) ds initialControls) true).
Proof.
  induction n as [|n IH]; intros Hn.
  - cbn [times]. rewrite afterEdits_eq, Nat.sub_0_r, nth_last. reflexivity.
  - rewrite times_succ_last, IH by lia. unfold after.
    rewrite (undo_back _ (nth (length ds - 1 - S n) ds initialControls)); cbn.
    + f_equal. f_equal. lia.
    + lia.
    + lia.
    + rewrite (array_get_in_bounds _ _ initialControls).
      * f_equal. f_equal. lia.
      * unfold in_bounds. lia.
Qed.

(** The [k]-th undo and every later one replace the form by a blank one. *)
Lemma undos_beyond (ds : list IFormData) (n : nat) :
  (length ds <= n)%nat ->
  undo (times n undo (afterEdits ds)) =
  (Normal tt,
   mkComponent ds (Z.of_nat (length ds) - 1) (Z.of_nat n + 1) false
               (newFormGroup initialControls)).
Proof.
  induction n as [|n IH]; intros Hn.
  - cbn [times]. rewrite afterEdits_eq. rewrite undo_exhausted; fields; [reflexivity|lia].
  - rewrite times_succ_last. unfold after at 1.
    destruct (Nat.eq_dec (length ds) (S n)) as [Heq|Hne].
    + rewrite undos_within by lia.
      match goal with
      | |- context [ snd (undo ?c) ] => rewrite (undo_exhausted c); fields; [|lia]
      end.
      rewrite undo_exhausted; fields; [|lia].
      repeat f_equal; lia.
    + rewrite IH by lia. fields.
      rewrite undo_exhausted; fields; [|lia].
      repeat f_equal; lia.
Qed.

Lemma undos_counter (ds : list IFormData) (n : nat) :
  undoRedoCounter (times n undo (afterEdits ds)) = Z.of_nat n.
Proof.
  destruct (Nat.lt_ge_cases n (length ds)) as [Hlt|Hge].
  - rewrite undos_within by exact Hlt. reflexivity.
  - destruct n as [|n].
    + cbn [times]. rewrite afterEdits_eq. reflexivity.
    + rewrite times_succ_last. unfold after.
      destruct (Nat.eq_dec (length ds) (S n)) as [Heq|Hne].
      * rewrite undos_within by lia. rewrite undo_exhausted; fields; lia.
      * rewrite undos_beyond by lia. fields. lia.
Qed.

(** ** Reads of the history array *)

Lemma undo_completes_iff (this : MyFormComponent) :
  completed (undo this) = true <->
  (forall i, undo_read_index this = Some i ->
             in_bounds (formStateHistory this) i).
Proof.
  destruct this as [h i n b [v s]]. unfold undo_read_index. fields.
  split.
  - intros Hc j Hj. destruct (Z.leb_spec (n + 1) i); [|discriminate].
    injection Hj as <-.
    destruct (array_get h (i - (n + 1))) eqn:Hx.
    + eapply array_get_some_in_bounds, Hx.
    + rewrite undo_throws in Hc by (fields; assumption). discriminate.
  - intros Hb. destruct (Z.leb_spec (n + 1) i).
    + specialize (Hb _ eq_refl).
      pose proof (array_get_in_bounds h _ initialControls Hb) as Hx.
      unfold_methods. destruct (Z.leb_spec (n + 1) i); [|lia].
      rewrite Hx. cbn. by_cases; reflexivity.
    + rewrite undo_exhausted by (fields; lia). reflexivity.
Qed.

Lemma redo_completes_iff (this : MyFormComponent) :
  completed (redo this) = true <->
  (forall i, redo_read_index this = Some i ->
             in_bounds (formStateHistory this) i).
Proof.
  destruct this as [h i n b [v s]]. unfold redo_read_index. fields.
  rewrite Z.gtb_ltb. split.
  - intros Hc j Hj. unfold_methods. rewrite Z.gtb_ltb in Hc.
    destruct (Z.ltb_spec 0 (n - 1)); injection Hj as <-; cbn in Hc.
    + destruct (array_get h (i - (n - 1))) eqn:Hx; [|discriminate].
      eapply array_get_some_in_bounds, Hx.
    + destruct (array_get h i) eqn:Hx; [|discriminate].
      eapply array_get_some_in_bounds, Hx.
  - intros Hb. unfold_methods. rewrite Z.gtb_ltb.
    destruct (Z.ltb_spec 0 (n - 1)); specialize (Hb _ eq_refl); cbn;
      rewrite (array_get_in_bounds h _ initialControls Hb); cbn;
      by_cases; reflexivity.
Qed.


(** ** One undo, then redo, with at least two entries *)

Lemma undo_once (ds : list IFormData) :
  (2 <= length ds)%nat ->
  undo (afterEdits ds) =
  (Normal tt,
   mkComponent ds (Z.of_nat (length ds) - 1) 1 false
               (mkFormGroup (nth (length ds - 1 - 1) ds initialControls) true)).
Proof.
  intros Hk. rewrite afterEdits_eq.
  rewrite (undo_back _ (nth (length ds - 1 - 1) ds initialControls)); fields.
  - reflexivity.
  - lia.
  - lia.
  - rewrite (array_get_in_bounds _ _ initialControls).
    + f_equal. f_equal. lia.
    + unfold in_bounds. lia.
Qed.

(** The re-entrant notification of a redo to the latest entry pushes and
    pops: the component is back where the edits left it. *)
Lemma redo_after_undo_once (ds : list IFormData) :
  (2 <= length ds)%nat ->
  redo (after undo (afterEdits ds)) = (Normal tt, afterEdits ds).
Proof.
  intros Hk.
  assert (Hne : ds <> []) by (destruct ds; [cbn in Hk; lia | discriminate]).
  unfold after. rewrite undo_once by exact Hk. fields.
  rewrite (redo_to_latest _ (last ds initialControls)); fields;
    [| reflexivity | reflexivity | exact (array_get_last ds initialControls Hne)].
  rewrite afterEdits_eq. f_equal. f_equal. lia.
Qed.

(** A redo with nothing undone runs at a negative counter: its re-entrant
    notification pushes the latest snapshot once more, and nothing pops it. *)
Lemma redo_nothing_undone (ds : list IFormData) :
  ds <> [] ->
  redo (afterEdits ds) =
  (Normal tt,
   mkComponent (ds ++ [last ds initialControls]) (Z.of_nat (length ds) - 1 + 1)
               (0 - 1) true (mkFormGroup (last ds initialControls) true)).
Proof.
  intros Hne. rewrite afterEdits_eq.
  rewrite (redo_past_latest _ (last ds initialControls)); fields;
    [reflexivity | lia | reflexivity | exact (array_get_last ds initialControls Hne)].
Qed.

(** ** Worked runs *)

(** Three edits, three undos, three redos.  The third undo replaces the
    form by a fresh group that nobody observes, so the redos that follow
    write to it without any notification, and the last one leaves its flag
    set. *)
Example three_edits_undone_and_redone :
  let c0 := afterEdits [snapA; snapB; snapC] in
  shown (run [OpUndo] c0) = snapB /\
  shown (run [OpUndo; OpUndo] c0) = snapA /\
  shown (run [OpUndo; OpUndo; OpUndo] c0) = initialControls /\
  shown (run [OpUndo; OpUndo; OpUndo; OpRedo] c0) = snapA /\
  shown (run [OpUndo; OpUndo; OpUndo; OpRedo; OpRedo] c0) = snapB /\
  run [OpUndo; OpUndo; OpUndo; OpRedo; OpRedo; OpRedo] c0 =
  mkComponent [snapA; snapB; snapC] 2 0 true (mkFormGroup snapC false).
Proof. repeat split; reflexivity. Qed.

(** With the counter at [-2] an undo takes the history branch and reads one
    past the last entry. *)
Example undo_reads_past_the_end :
  let this := run [OpRedo; OpRedo] (afterEdits [snapA]) in
  undoRedoCounter this = -2 /\
  length (formStateHistory this) = 3%nat /\
  undo_read_index this = Some 3 /\
  completed (undo this) = false.
Proof. repeat split; reflexivity. Qed.

(** Without any recorded edit the redo after an undo throws; the form
    still holds the blank record and the history is still empty. *)
Example undo_then_redo_without_edits :
  completed (undo mounted) = true /\
  completed (redo (after undo mounted)) = false /\
  shown (after redo (after undo mounted)) = shown mounted /\
  formStateHistory (after redo (after undo mounted)) = [].
Proof. repeat split; reflexivity. Qed.

(** * The properties *)

(** ** Redo past the latest entry *)

(** C1: after [k >= 2] recorded edits and one [undo], two consecutive calls
    of [redo] both show the latest edit.  The first leaves the history at
    its [k] entries: its re-entrant notification pushes and pops.  The
    second, run at counter [-1], pushes the latest snapshot again and does
    not pop it, so the history ends with [k + 1] entries, the last one
    a duplicate. *)
Theorem redo_twice_appends_duplicate (ds : list IFormData) :
  (2 <= length ds)%nat ->
  let c1 := after undo (afterEdits ds) in
  let c2 := after redo c1 in
  let c3 := after redo c2 in
  completed (redo c1) = true /\ completed (redo c2) = true /\
  shown c2 = last ds initialControls /\
  shown c3 = last ds initialControls /\
  formStateHistory c2 = ds /\
  formStateHistory c3 = ds ++ [last ds initialControls] /\
  length (formStateHistory c3) = S (length ds).
Proof.
  intros Hk c1 c2 c3.
  assert (Hne : ds <> []) by (destruct ds; [cbn in Hk; lia | discriminate]).
  pose proof (redo_after_undo_once ds Hk) as R2. fold c1 in R2.
  assert (H2 : c2 = afterEdits ds) by (subst c2; unfold after; rewrite R2; reflexivity).
  pose proof (redo_nothing_undone ds Hne) as R3. rewrite <- H2 in R3.
  assert (H3 : formStateHistory c3 = ds ++ [last ds initialControls]
               /\ shown c3 = last ds initialControls).
  { subst c3. unfold after. rewrite R3. split; reflexivity. }
  destruct H3 as [H3 H3'].
  unfold completed. rewrite R2, R3, H3, H3', H2, afterEdits_eq, length_app.
  repeat split; try reflexivity. cbn [length]. lia.
Qed.

Lemma redo_twice_appends_duplicate_witness :
  (2 <= length [snapA; snapB])%nat /\
  length (formStateHistory
            (after redo (after redo (after undo (afterEdits [snapA; snapB])))))
  = 3%nat.
Proof.
  split; [cbn; lia|].
  apply (redo_twice_appends_duplicate [snapA; snapB]). cbn; lia.
Defined.

(** ** The bound on the undo counter *)

(** C2, as stated, fails: [undo] increments the counter whatever the cursor
    is.  On the freshly mounted component one call takes the counter to [1]
    while the cursor is [-1]. *)
Lemma undo_on_fresh_component_exceeds_bound :
  0 < undoRedoCounter (run [OpUndo] mounted) /\
  ~ (0 <= undoRedoCounter (run [OpUndo] mounted)
          <= currentHistoryIndex (run [OpUndo] mounted) + 1).
Proof.
  split; [reflexivity|].
  intros [_ H]. vm_compute in H. apply H. reflexivity.
Qed.

(** C2, amended: from the initial state, every sequence of recordChange, edit,
    undo and redo calls in which [undo] is called only while the counter has
    not passed the cursor keeps a positive counter within
    [0 <= undoRedoCounter <= currentHistoryIndex + 1]. *)
Theorem guarded_undo_keeps_counter_bound (ops : list Op) :
  undo_guarded ops mounted = true ->
  0 < undoRedoCounter (run ops mounted) ->
  0 <= undoRedoCounter (run ops mounted)
    <= currentHistoryIndex (run ops mounted) + 1.
Proof.
  intros Hg Hpos. split; [lia|].
  apply (run_counter_within ops mounted Hg). unfold counter_within. cbn. lia.
Qed.

Lemma guarded_undo_keeps_counter_bound_witness :
  let ops := [OpEdit snapA; OpEdit snapB; OpUndo; OpUndo] in
  undo_guarded ops mounted = true /\
  0 < undoRedoCounter (run ops mounted) /\
  0 <= undoRedoCounter (run ops mounted)
    <= currentHistoryIndex (run ops mounted) + 1.
Proof.
  intros ops. split; [reflexivity|]. split; [reflexivity|].
  apply (guarded_undo_keeps_counter_bound ops); reflexivity.
Defined.

(** ** Out-of-bounds reads *)

(** C3: [redo] on the freshly mounted component, before any change was
    recorded, decrements the counter to [-1], reads the history at the
    cursor [-1], gets [undefined] and throws inside [setValue]. *)
Theorem redo_before_any_edit_throws :
  formStateHistory mounted = [] /\
  currentHistoryIndex mounted = -1 /\
  redo_read_index mounted = Some (-1) /\
  ~ in_bounds (formStateHistory mounted) (-1) /\
  fst (redo mounted) = TypeError /\
  completed (redo mounted) = false.
Proof.
  repeat split; try reflexivity.
  unfold in_bounds. cbn. lia.
Qed.

(** ** Undo walks backward *)

(** C4, as stated, fails at [i = k]: with one recorded edit the first
    [undo] shows the blank record, which is no recorded snapshot at all. *)
Lemma kth_undo_shows_no_recorded_snapshot :
  let ds := [snapA] in
  let v := shown (times 1 undo (afterEdits ds)) in
  (1 <= length ds)%nat /\ (1 <= 1 <= length ds)%nat /\
  snapshot_at_edit ds (length ds - 1) <> Some v /\
  ~ In v ds /\
  v = initialControls.
Proof.
  cbn zeta. repeat split; try (cbn; lia).
  - cbn. discriminate.
  - cbn. intros [H|[]]. discriminate H.
Qed.

(** C4, amended: after [k >= 1] recorded edits, the [i]-th of [k]
    consecutive [undo] calls completes; for [i < k] it shows the snapshot
    recorded at edit [k - i], and for [i = k] the blank initial record. *)
Theorem undo_walks_back_then_blank (ds : list IFormData) (i : nat) :
  (1 <= i <= length ds)%nat ->
  let before := times (i - 1) undo (afterEdits ds) in
  completed (undo before) = true /\
  ((i < length ds)%nat ->
   snapshot_at_edit ds (length ds - i) = Some (shown (after undo before))) /\
  (i = length ds -> shown (after undo before) = initialControls).
Proof.
  intros [Hi Hk] before.
  assert (Hafter : after undo before = times i undo (afterEdits ds)).
  { subst before. rewrite <- times_succ_last. f_equal. lia. }
  split; [|split].
  - destruct (Nat.eq_dec i (length ds)) as [Heq|Hne].
    + assert (Hb : before = mkComponent ds (Z.of_nat (length ds) - 1)
                              (Z.of_nat (i - 1)) false
                              (mkFormGroup (nth (length ds - 1 - (i - 1)) ds initialControls) true)).
      { subst before. apply undos_within. lia. }
      rewrite Hb, undo_exhausted; fields; [reflexivity|lia].
    + apply undo_completes_iff. intros j Hj.
      assert (Hb : before = mkComponent ds (Z.of_nat (length ds) - 1)
                              (Z.of_nat (i - 1)) false
                              (mkFormGroup (nth (length ds - 1 - (i - 1)) ds initialControls) true)).
      { subst before. apply undos_within. lia. }
      rewrite Hb in Hj |- *. unfold undo_read_index in Hj. fields.
      destruct (Z.leb_spec (Z.of_nat (i - 1) + 1) (Z.of_nat (length ds) - 1));
        [|discriminate].
      injection Hj as <-. unfold in_bounds. lia.
  - intros Hlt. rewrite Hafter, undos_within by exact Hlt. unfold shown. cbn.
    destruct (length ds - i)%nat as [|m] eqn:Hm; [lia|]. cbn.
    replace (length ds - 1 - i)%nat with m by lia.
    f_equal. apply nth_error_nth'. lia.
  - intros Heq. unfold after.
    assert (Hb : before = mkComponent ds (Z.of_nat (length ds) - 1)
                            (Z.of_nat (i - 1)) false
                            (mkFormGroup (nth (length ds - 1 - (i - 1)) ds initialControls) true)).
    { subst before. apply undos_within. lia. }
    rewrite Hb, undo_exhausted; fields; [reflexivity|lia].
Qed.

Lemma undo_walks_back_then_blank_witness :
  (1 <= 2 <= length [snapA; snapB; snapC])%nat /\
  snapshot_at_edit [snapA; snapB; snapC] 1 =
  Some (shown (after undo (times 1 undo (afterEdits [snapA; snapB; snapC])))).
Proof.
  split; [cbn; lia|].
  apply (undo_walks_back_then_blank [snapA; snapB; snapC] 2); cbn; lia.
Defined.

(** ** Undo then redo *)




(** ** Undo past the earliest entry *)

(** C6: after [k] recorded edits and [k] calls of [undo], one more [undo]
    completes, moves the counter to [k + 1] and leaves the form showing the
    blank record of [initializeForm], in a fresh group. *)
Theorem undo_past_earliest_shows_blank (ds : list IFormData) :
  let before := times (length ds) undo (afterEdits ds) in
  completed (undo before) = true /\
  shown (after undo before) = initialControls /\
  form (after undo before) = newFormGroup initialControls /\
  undoRedoCounter (after undo before) = undoRedoCounter before + 1 /\
  undoRedoCounter (after undo before) = Z.of_nat (length ds) + 1.
Proof.
  intros before. pose proof (undos_counter ds (length ds)) as Hn.
  fold before in Hn.
  pose proof (undos_beyond ds (length ds) (Nat.le_refl _)) as U.
  fold before in U. unfold after, completed. rewrite U, Hn.
  repeat split; reflexivity.
Qed.

(** ** The change handler *)

(** C7, as stated, fails where the flag is set: one edit, an [undo] that
    replaces the form and a [redo] that writes to the new, unobserved form
    leave the counter at [0] with the flag still set; the next change
    handed to the handler is pushed and popped at once, and the flag is
    cleared. *)
Lemma recordChange_with_flag_set_keeps_length :
  let this := run [OpUndo; OpRedo] (afterEdits [snapA]) in
  let this' := after (recordChange snapB) this in
  undoRedoCounter this = 0 /\
  isLastRedoAction this = true /\
  length (formStateHistory this') <> S (length (formStateHistory this)) /\
  currentHistoryIndex this' <> currentHistoryIndex this + 1 /\
  formStateHistory this' = formStateHistory this /\
  isLastRedoAction this' = false.
Proof.
  cbn zeta. repeat split; try reflexivity; vm_compute; discriminate.
Qed.

(** C7, amended: in every state with counter [0], a call of recordChange
    completes.  With the flag clear it appends the incoming snapshot, so
    the history grows by exactly one and the cursor advances by one; the
    state it leaves has counter [0] and the flag clear again, so any
    sequence of snapshots, distinct or not, is appended in order.  With the
    flag set it pushes and immediately pops the snapshot, so the history
    and the cursor are what they were, and it clears the flag. *)
Theorem recordChange_appends (this : MyFormComponent)
    (d : IFormData) (ds : list IFormData) :
  undoRedoCounter this = 0 ->
  completed (recordChange d this) = true /\
  undoRedoCounter (after (recordChange d) this) = 0 /\
  isLastRedoAction (after (recordChange d) this) = false /\
  (isLastRedoAction this = false ->
   (formStateHistory (after (recordChange d) this) = formStateHistory this ++ [d] /\
    length (formStateHistory (after (recordChange d) this))
      = S (length (formStateHistory this)) /\
    currentHistoryIndex (after (recordChange d) this)
      = currentHistoryIndex this + 1) /\
   (formStateHistory (run (map OpRecordChange ds) this)
      = formStateHistory this ++ ds /\
    currentHistoryIndex (run (map OpRecordChange ds) this)
      = currentHistoryIndex this + Z.of_nat (length ds))) /\
  (isLastRedoAction this = true ->
   formStateHistory (after (recordChange d) this) = formStateHistory this /\
   length (formStateHistory (after (recordChange d) this))
     = length (formStateHistory this) /\
   currentHistoryIndex (after (recordChange d) this) = currentHistoryIndex this).
Proof.
  intros Hn. split; [|split; [|split; [|split]]].
  - destruct this as [h i n [|] [v s]]; cbn in Hn; subst; reflexivity.
  - destruct this as [h i n [|] [v s]]; cbn in Hn; subst; reflexivity.
  - destruct this as [h i n [|] [v s]]; cbn in Hn; subst; reflexivity.
  - intros Hb. split.
    + destruct this as [h i n b [v s]]. cbn in Hn, Hb. subst.
      cbn. rewrite length_app. cbn [length].
      repeat split; try reflexivity. lia.
    + revert this Hn Hb. induction ds as [|d' ds IH]; intros this Hn Hb.
      * cbn. rewrite app_nil_r. split; [reflexivity|lia].
      * cbn [map run exec].
        destruct this as [h i n b [v s]]. cbn in Hn, Hb. subst.
        cbn [after recordChange]. unfold_methods.
        match goal with
        | |- context [ run _ ?c ] => destruct (IH c eq_refl eq_refl) as [Hh Hi]
        end.
        rewrite Hh, Hi. cbn. rewrite <- app_assoc. split; [reflexivity|lia].
  - intros Hb. destruct this as [h i n b [v s]]. cbn in Hn, Hb. subst.
    cbn. rewrite removelast_last. repeat split. lia.
Qed.

Lemma recordChange_appends_witness :
  let flagged := run [OpUndo; OpRedo] (afterEdits [snapA]) in
  (undoRedoCounter mounted = 0 /\ isLastRedoAction mounted = false /\
   formStateHistory (after (recordChange snapA) mounted) = [snapA] /\
   formStateHistory (run (map OpRecordChange [snapA; snapB]) mounted)
   = [snapA; snapB]) /\
  (undoRedoCounter flagged = 0 /\ isLastRedoAction flagged = true /\
   formStateHistory (after (recordChange snapB) flagged) = formStateHistory flagged /\
   isLastRedoAction (after (recordChange snapB) flagged) = false).
Proof.
  intros flagged. split.
  - split; [reflexivity|]. split; [reflexivity|].
    split;
      apply (recordChange_appends mounted snapA [snapA; snapB]); reflexivity.
  - split; [reflexivity|]. split; [reflexivity|]. split.
    + apply (recordChange_appends flagged snapB []); reflexivity.
    + apply (recordChange_appends flagged snapB []). reflexivity.
Defined.

(** C8: in every state with a positive counter, a call of recordChange
    completes and leaves the history, the cursor and the flag (and the
    counter) as they were. *)
Theorem recordChange_absorbed (this : MyFormComponent) (d : IFormData) :
  0 < undoRedoCounter this ->
  completed (recordChange d this) = true /\
  formStateHistory (after (recordChange d) this) = formStateHistory this /\
  currentHistoryIndex (after (recordChange d) this) = currentHistoryIndex this /\
  isLastRedoAction (after (recordChange d) this) = isLastRedoAction this /\
  undoRedoCounter (after (recordChange d) this) = undoRedoCounter this.
Proof.
  intros Hn. unfold recordChange, after, completed, bind, modify.
  rewrite onInputChange_absorbed by (destruct this; exact Hn).
  destruct this. repeat split; reflexivity.
Qed.

Lemma recordChange_absorbed_witness :
  let this := after undo (afterEdits [snapA; snapB]) in
  0 < undoRedoCounter this /\
  formStateHistory (after (recordChange snapC) this) = formStateHistory this.
Proof.
  intros this. split; [reflexivity|].
  apply (recordChange_absorbed this snapC). reflexivity.
Defined.

(** ** The cursor *)

(** C9: the initial state has an empty history and cursor [-1], and after
    any sequence of edits, recordChange, undo and redo calls (re-entrant
    notifications and thrown calls included)
    [-1 <= currentHistoryIndex < formStateHistory.length]. *)
Theorem cursor_stays_in_range (ops : list Op) :
  formStateHistory mounted = [] /\ currentHistoryIndex mounted = -1 /\
  -1 <= currentHistoryIndex (run ops mounted)
     < Z.of_nat (length (formStateHistory (run ops mounted))).
Proof.
  split; [reflexivity|]. split; [reflexivity|].
  pose proof (run_cursor_at_end ops mounted mounted_cursor_at_end) as H.
  unfold cursor_at_end in H. lia.
Qed.

(** ** The blank record *)

(** C10: whenever [undo] takes the exhaustion branch (the incremented
    counter exceeds the cursor) it completes and the form then holds the
    record [{firstName: null, lastName: null, comment: null, age: 0,
    agree: false, gender: false, birthday: '', country: ''}], the value of
    the freshly initialised form, whatever the history contains. *)
Theorem undo_exhaustion_shows_fixed_record (this : MyFormComponent) :
  currentHistoryIndex this < undoRedoCounter this + 1 ->
  completed (undo this) = true /\
  shown (after undo this) =
    {| firstName := None; lastName := None; comment := None; age := 0;
       agree := false; gender := false; birthday := EmptyString; country := EmptyString |} /\
  shown (after undo this) = shown mounted /\
  (forall form0 : FormGroup,
     shown (after undo this) = shown (after initializeForm (newComponent form0))).
Proof.
  intros Hx. unfold after, completed. rewrite undo_exhausted by exact Hx.
  repeat split; reflexivity.
Qed.

Lemma undo_exhaustion_shows_fixed_record_witness :
  let this := after undo (afterEdits [snapA; snapB; snapC]) in
  let this' := after undo this in
  currentHistoryIndex this' < undoRedoCounter this' + 1 /\
  shown (after undo this') = initialControls.
Proof.
  intros this this'. split; [reflexivity|].
  apply (undo_exhaustion_shows_fixed_record this'). reflexivity.
Defined.

(** * Further properties of the component *)

(** ** Lemmas on single calls *)

Lemma exec_history_grows (o : Op) (this : MyFormComponent) :
  exists suffix : list IFormData,
    formStateHistory (after (exec o) this) = formStateHistory this ++ suffix /\
    (length suffix <= 1)%nat.
Proof.
  destruct this as [h i n b [v s]].
  destruct o; unfold_methods; by_cases; try (exfalso; lia);
    rewrite ?removelast_last;
    first [ exists (@nil IFormData); rewrite app_nil_r; split; [reflexivity | cbn; lia]
          | eexists; split; [reflexivity | cbn; lia] ].
Qed.

Lemma exec_counter (o : Op) (this : MyFormComponent) :
  undoRedoCounter (after (exec o) this) =
  undoRedoCounter this + (if is_undo o then 1 else 0) - (if is_redo o then 1 else 0).
Proof.
  destruct this as [h i n b [v s]].
  destruct o; unfold_methods; by_cases; lia.
Qed.

Lemma exec_unobserved (o : Op) (this : MyFormComponent) :
  subscribed (form this) = false ->
  is_direct o = false ->
  formStateHistory (after (exec o) this) = formStateHistory this /\
  currentHistoryIndex (after (exec o) this) = currentHistoryIndex this /\
  subscribed (form (after (exec o) this)) = false.
Proof.
  destruct this as [h i n b [v s]]. cbn. intros -> Hd.
  destruct o; try discriminate; unfold_methods; by_cases;
    repeat split; reflexivity.
Qed.

Lemma undo_throws_at (this : MyFormComponent) :
  cursor_at_end this ->
  completed (undo this) = false <-> undoRedoCounter this < -1.
Proof.
  intros Hc. unfold cursor_at_end in Hc.
  pose proof (undo_completes_iff this) as Hiff.
  unfold undo_read_index, in_bounds in Hiff.
  destruct (completed (undo this)).
  - split; [discriminate|]. intros Hn. exfalso.
    destruct Hiff as [Hiff _]. specialize (Hiff eq_refl).
    destruct (Z.leb_spec (undoRedoCounter this + 1) (currentHistoryIndex this));
      [|lia].
    specialize (Hiff _ eq_refl). lia.
  - split; [|reflexivity]. intros _.
    destruct (Z.lt_ge_cases (undoRedoCounter this) (-1)) as [Hlt|Hge]; [exact Hlt|].
    exfalso. assert (false = true); [|discriminate].
    apply Hiff. intros j Hj.
    destruct (Z.leb_spec (undoRedoCounter this + 1) (currentHistoryIndex this));
      [|discriminate].
    injection Hj as <-. lia.
Qed.

Lemma redo_throws_at (this : MyFormComponent) :
  cursor_at_end this ->
  completed (redo this) = false <->
  (1 < undoRedoCounter this /\ currentHistoryIndex this + 1 < undoRedoCounter this)
  \/ (undoRedoCounter this <= 1 /\ formStateHistory this = []).
Proof.
  intros Hc. unfold cursor_at_end in Hc.
  pose proof (redo_completes_iff this) as Hiff.
  unfold redo_read_index, in_bounds in Hiff. rewrite Z.gtb_ltb in Hiff.
  assert (Hlen : formStateHistory this = [] <->
                 Z.of_nat (length (formStateHistory this)) = 0).
  { destruct (formStateHistory this); cbn; split; try reflexivity;
      try discriminate; lia. }
  destruct (completed (redo this)).
  - split; [discriminate|]. intros Hn. exfalso.
    destruct Hiff as [Hiff _]. specialize (Hiff eq_refl).
    destruct (Z.ltb_spec 0 (undoRedoCounter this - 1));
      specialize (Hiff _ eq_refl); destruct Hn as [[? ?]|[? He]];
      try apply Hlen in He; lia.
  - split; [|reflexivity]. intros _.
    destruct (Z.ltb_spec 0 (undoRedoCounter this - 1)) as [Hpos|Hnon].
    + destruct (Z.lt_ge_cases (currentHistoryIndex this + 1) (undoRedoCounter this))
        as [Hlt|Hge]; [left; lia|].
      exfalso. assert (false = true); [|discriminate].
      apply Hiff. intros j Hj. injection Hj as <-. lia.
    + destruct (Z.eq_dec (Z.of_nat (length (formStateHistory this))) 0) as [He|Hne];
        [right; split; [lia | apply Hlen, He]|].
      exfalso. assert (false = true); [|discriminate].
      apply Hiff. intros j Hj. injection Hj as <-. lia.
Qed.

Lemma run_app (ops1 ops2 : list Op) :
  forall this, run (ops1 ++ ops2) this = run ops2 (run ops1 this).
Proof.
  induction ops1 as [|o ops1 IH]; intros this; [reflexivity|].
  cbn [app run]. apply IH.
Qed.

Lemma run_edits_unobserved (ds : list IFormData) :
  forall this : MyFormComponent,
    subscribed (form this) = false ->
    run (map OpEdit ds) this =
    set_form (mkFormGroup (last ds (rawValue (form this))) false) this.
Proof.
  induction ds as [|d ds IH]; intros this Hs.
  - destruct this as [h i n b [v s]]. cbn in *. subst. reflexivity.
  - cbn [map run]. rewrite IH.
    + destruct this as [h i n b [v s]]. cbn in Hs. subst. cbn.
      unfold set_form. cbn. do 2 f_equal.
      destruct ds as [|d' ds]; [reflexivity|].
      change (last (d :: d' :: ds) v) with (last (d' :: ds) v).
      apply last_cons_default.
    + apply exec_unobserved; [exact Hs | reflexivity].
Qed.

(** ** Recording is wired by [ngOnInit] *)

(** X1: once [ngOnInit] has run on the newly constructed component,
    user edits that bring the form to [d1 .. dk] are recorded one by one:
    the history is exactly [d1 .. dk], the cursor is [k - 1], counter and
    flag are untouched and the form shows the last value.  It is the
    subscription that does it: after [initializeForm] alone, on any
    component, the same edits reach the form and nothing else. *)
Theorem ngOnInit_wires_recording (ds : list IFormData) :
  (forall form0 : FormGroup,
     run (map OpEdit ds) (after ngOnInit (newComponent form0)) =
     mkComponent ds (Z.of_nat (length ds) - 1) 0 false
                 (mkFormGroup (last ds initialControls) true)) /\
  (forall this : MyFormComponent,
     run (map OpEdit ds) (after initializeForm this) =
     mkComponent (formStateHistory this) (currentHistoryIndex this)
                 (undoRedoCounter this) (isLastRedoAction this)
                 (mkFormGroup (last ds initialControls) false)).
Proof.
  split.
  - intros form0. unfold after. rewrite ngOnInit_mounts. apply afterEdits_eq.
  - intros this. rewrite run_edits_unobserved by (destruct this; reflexivity).
    destruct this. reflexivity.
Qed.

(** ** What every call sequence keeps *)

(** X2: on the mounted component, after any sequence of calls,
    [currentHistoryIndex] is exactly [formStateHistory.length - 1]. *)
Theorem cursor_is_last_index (ops : list Op) :
  currentHistoryIndex (run ops mounted) =
  Z.of_nat (length (formStateHistory (run ops mounted))) - 1.
Proof.
  exact (run_cursor_at_end ops mounted mounted_cursor_at_end).
Qed.

(** X3: no call ever removes or rewrites a recorded snapshot.  From any
    component, after any sequence of calls, the old history is a prefix of
    the new one, and each call has added at most one entry. *)
Theorem history_only_grows (ops : list Op) (this : MyFormComponent) :
  exists suffix : list IFormData,
    formStateHistory (run ops this) = formStateHistory this ++ suffix /\
    (length suffix <= length ops)%nat.
Proof.
  revert this. induction ops as [|o ops IH]; intros this.
  - exists []. rewrite app_nil_r. split; [reflexivity | cbn; lia].
  - cbn [run]. destruct (exec_history_grows o this) as (s1 & H1 & L1).
    destruct (IH (after (exec o) this)) as (s2 & H2 & L2).
    exists (s1 ++ s2). rewrite H2, H1, <- app_assoc, length_app.
    split; [reflexivity | cbn [length]; lia].
Qed.

(** X4: the counter only counts calls: after any sequence of calls it is
    the old counter plus the number of [undo] calls minus the number of
    [redo] calls, whether they completed or threw; no edit resets it. *)
Theorem counter_counts_undos_minus_redos (ops : list Op) (this : MyFormComponent) :
  undoRedoCounter (run ops this) =
  undoRedoCounter this + calls is_undo ops - calls is_redo ops.
Proof.
  revert this. unfold calls. induction ops as [|o ops IH]; intros this.
  - cbn. lia.
  - cbn [run]. rewrite IH, exec_counter. cbn [filter].
    destruct o; cbn [is_undo is_redo length]; lia.
Qed.

(** X5: when [undo] takes its exhaustion branch it replaces the form by
    a new group that the component does not observe.  From then on no user
    edit, [undo] or [redo] changes the history or the cursor: what the
    user types is never recorded again. *)
Theorem edits_after_exhausted_undo_are_lost (this : MyFormComponent) (ops : list Op) :
  currentHistoryIndex this < undoRedoCounter this + 1 ->
  forallb (fun o => negb (is_direct o)) ops = true ->
  formStateHistory (run ops (after undo this)) = formStateHistory this /\
  currentHistoryIndex (run ops (after undo this)) = currentHistoryIndex this /\
  subscribed (form (run ops (after undo this))) = false.
Proof.
  intros Hx Hops.
  assert (Hgen : forall c, subscribed (form c) = false ->
            formStateHistory (run ops c) = formStateHistory c /\
            currentHistoryIndex (run ops c) = currentHistoryIndex c /\
            subscribed (form (run ops c)) = false).
  { induction ops as [|o ops IH]; intros c Hs.
    - repeat split. exact Hs.
    - cbn [forallb] in Hops. apply andb_prop in Hops as [Ho Hops].
      apply negb_true_iff in Ho.
      destruct (exec_unobserved o c Hs Ho) as (Hh & Hi & Hs').
      cbn [run]. destruct (IH Hops _ Hs') as (Hh2 & Hi2 & Hs2).
      rewrite Hh2, Hi2, Hh, Hi. repeat split. exact Hs2. }
  unfold after at 1 2 3. rewrite undo_exhausted by exact Hx. cbn [snd].
  match goal with
  | |- context [ run ops ?c ] => destruct (Hgen c eq_refl) as (Hh & Hi & Hs)
  end.
  rewrite Hh, Hi, Hs. repeat split.
Qed.

Lemma edits_after_exhausted_undo_are_lost_witness :
  let this := afterEdits [snapA] in
  currentHistoryIndex this < undoRedoCounter this + 1 /\
  forallb (fun o => negb (is_direct o)) [OpEdit snapB; OpEdit snapC] = true /\
  formStateHistory (run [OpEdit snapB; OpEdit snapC] (after undo this)) = [snapA].
Proof.
  intros this. split; [reflexivity|]. split; [reflexivity|].
  apply (edits_after_exhausted_undo_are_lost this [OpEdit snapB; OpEdit snapC]);
    reflexivity.
Defined.

(** ** When a call throws *)

(** X6: on the mounted component, after any sequence of calls, [undo]
    throws exactly when the counter is below [-1], that is after at least
    two more [redo] than [undo] calls. *)
Theorem undo_throws_exactly_below_minus_one (ops : list Op) :
  completed (undo (run ops mounted)) = false <->
  undoRedoCounter (run ops mounted) < -1.
Proof.
  apply undo_throws_at, run_cursor_at_end, mounted_cursor_at_end.
Qed.

(** X7: on the mounted component, after any sequence of calls, [redo]
    throws exactly when either the counter is above [1] and above
    [currentHistoryIndex + 1] (more undone than was ever recorded), or the
    counter is at most [1] and the history is empty. *)
Theorem redo_throws_exactly_out_of_history (ops : list Op) :
  completed (redo (run ops mounted)) = false <->
  (1 < undoRedoCounter (run ops mounted) /\
   currentHistoryIndex (run ops mounted) + 1 < undoRedoCounter (run ops mounted))
  \/ (undoRedoCounter (run ops mounted) <= 1 /\
      formStateHistory (run ops mounted) = []).
Proof.
  apply redo_throws_at, run_cursor_at_end, mounted_cursor_at_end.
Qed.

(** X8: only [undo] and [redo] can throw, and a call that throws has
    still moved the counter (and [redo], on its non-positive branch, has
    still set the flag), while the history, the cursor and the form are left
    as they were. *)
Theorem thrown_call_keeps_history_moves_counter (o : Op) (this : MyFormComponent) :
  completed (exec o this) = false ->
  (o = OpUndo \/ o = OpRedo) /\
  formStateHistory (after (exec o) this) = formStateHistory this /\
  currentHistoryIndex (after (exec o) this) = currentHistoryIndex this /\
  form (after (exec o) this) = form this /\
  undoRedoCounter (after (exec o) this) =
    undoRedoCounter this + (if is_undo o then 1 else -1) /\
  isLastRedoAction (after (exec o) this) =
    (if is_redo o && (undoRedoCounter this - 1 <=? 0) then true
     else isLastRedoAction this).
Proof.
  destruct this as [h i n b [v s]].
  destruct o; unfold_methods; by_cases; intros Hc; try discriminate;
    repeat split; try reflexivity; try lia; auto.
Qed.

Lemma thrown_call_keeps_history_moves_counter_witness :
  completed (exec OpRedo mounted) = false /\
  undoRedoCounter (after (exec OpRedo) mounted) = -1 /\
  isLastRedoAction (after (exec OpRedo) mounted) = true.
Proof.
  split; [reflexivity|].
  split; apply (thrown_call_keeps_history_moves_counter OpRedo mounted); reflexivity.
Defined.

(** ** Lemmas on consecutive redos *)

Lemma nth_error_in_bounds {A : Type} (a : list A) (i : Z) (x : A) :
  array_get a i = Some x -> In x a.
Proof.
  unfold array_get. destruct (i <? 0); [discriminate|]. apply nth_error_In.
Qed.

(** What a single [redo] shows, whether or not the form is observed. *)
Lemma redo_shown (this : MyFormComponent) (x : IFormData) :
  array_get (formStateHistory this)
            (if undoRedoCounter this - 1 >? 0
             then currentHistoryIndex this - (undoRedoCounter this - 1)
             else currentHistoryIndex this) = Some x ->
  completed (redo this) = true /\ shown (after redo this) = x.
Proof.
  destruct this as [h i n b [v s]]. fields. intros Hx.
  unfold_methods. rewrite Z.gtb_ltb in *.
  destruct (Z.ltb_spec 0 (n - 1)); cbn; rewrite Hx; cbn;
    by_cases; split; reflexivity.
Qed.

Lemma redos_within (h : list IFormData) (b : bool) (n m : nat) :
  forall f : FormGroup,
    (m < n <= length h)%nat ->
    exists f' : FormGroup,
      times m redo (mkComponent h (Z.of_nat (length h) - 1) (Z.of_nat n) b f) =
      mkComponent h (Z.of_nat (length h) - 1) (Z.of_nat (n - m)) b f' /\
      subscribed f' = subscribed f.
Proof.
  induction m as [|m IH]; intros f Hm.
  - exists f. rewrite Nat.sub_0_r. split; reflexivity.
  - destruct (IH f) as (f' & Hst & Hs); [lia|].
    rewrite times_succ_last, Hst. unfold after.
    rewrite (redo_forward _
               (nth (length h - 1 - (n - S m)) h initialControls)); fields.
    + exists (mkFormGroup (nth (length h - 1 - (n - S m)) h initialControls)
                        (subscribed f')).
      split; [f_equal; lia | exact Hs].
    + lia.
    + rewrite (array_get_in_bounds _ _ initialControls).
      * f_equal. f_equal. lia.
      * unfold in_bounds. lia.
Qed.

Lemma undos_state (ds : list IFormData) (j : nat) :
  (j <= length ds)%nat ->
  exists f : FormGroup,
    times j undo (afterEdits ds) =
    mkComponent ds (Z.of_nat (length ds) - 1) (Z.of_nat j) false f /\
    ((j < length ds)%nat -> subscribed f = true) /\
    ((1 <= j)%nat -> j = length ds -> subscribed f = false).
Proof.
  intros Hj. destruct (Nat.eq_dec j (length ds)) as [Heq|Hne].
  - destruct j as [|j].
    + eexists. cbn [times]. rewrite afterEdits_eq. repeat split; intros; lia.
    + rewrite times_succ_last. unfold after. rewrite undos_within by lia.
      rewrite undo_exhausted; fields; [|lia].
      eexists. split; [f_equal; lia|]. split; [lia | reflexivity].
  - eexists. rewrite undos_within by lia.
    split; [reflexivity|]. split; [reflexivity | lia].
Qed.

Lemma last_app_repeat {A : Type} (l : list A) (d : A) (n : nat) :
  last (l ++ repeat (last l d) n) d = last l d.
Proof.
  induction n as [|n IH]; [rewrite app_nil_r; reflexivity|].
  cbn [repeat]. rewrite repeat_cons, app_assoc. apply last_last.
Qed.

Lemma redos_past_latest (ds : list IFormData) (n : nat) :
  ds <> [] ->
  times n redo (afterEdits ds) =
  mkComponent (ds ++ repeat (last ds initialControls) n)
              (Z.of_nat (length ds) - 1 + Z.of_nat n) (- Z.of_nat n)
              (negb (Nat.eqb n 0))
              (mkFormGroup (last ds initialControls) true).
Proof.
  intros Hne. induction n as [|n IH].
  - cbn [times repeat]. rewrite afterEdits_eq, app_nil_r. f_equal. lia.
  - rewrite times_succ_last, IH. unfold after.
    rewrite (redo_past_latest _ (last ds initialControls)); fields.
    + cbn [snd Nat.eqb negb repeat]. rewrite repeat_cons, app_assoc.
      f_equal; lia.
    + lia.
    + reflexivity.
    + assert (Hne' : ds ++ repeat (last ds initialControls) n <> []).
      { destruct ds; [contradiction | discriminate]. }
      pose proof (array_get_last _ initialControls Hne') as Hl.
      rewrite last_app_repeat, length_app, repeat_length in Hl.
      rewrite <- Hl. f_equal. lia.
Qed.

(** ** Undoing and redoing several steps *)

(** X9: after [k] recorded edits, [j < k] undos followed by [j] redos
    bring the whole component back to where the edits left it: history,
    cursor, counter, flag and form. *)
Theorem undos_then_redos_round_trip (ds : list IFormData) (j : nat) :
  (j < length ds)%nat ->
  times j redo (times j undo (afterEdits ds)) = afterEdits ds.
Proof.
  intros Hj. destruct j as [|j]; [reflexivity|].
  destruct (undos_state ds (S j)) as (f & Hu & Hs & _); [lia|].
  rewrite Hu, times_succ_last.
  destruct (redos_within ds false (S j) j f) as (f' & Hr & Hs'); [lia|].
  rewrite Hr. unfold after.
  assert (Hne : ds <> []) by (destruct ds; [cbn in Hj; lia | discriminate]).
  rewrite (redo_to_latest _ (last ds initialControls)); fields.
  - rewrite afterEdits_eq. f_equal. lia.
  - f_equal. lia.
  - rewrite Hs'. apply Hs. exact Hj.
  - apply array_get_last, Hne.
Qed.

Lemma undos_then_redos_round_trip_witness :
  (2 < length [snapA; snapB; snapC])%nat /\
  times 2 redo (times 2 undo (afterEdits [snapA; snapB; snapC])) =
  afterEdits [snapA; snapB; snapC].
Proof.
  split; [cbn; lia|].
  apply (undos_then_redos_round_trip [snapA; snapB; snapC] 2). cbn; lia.
Defined.

(** X10: after [k >= 1] recorded edits, [k] undos followed by [k] redos
    give back the history and show the latest edit, but not the component
    the edits left: the flag stays set and the form is the unobserved group
    created by the [k]-th undo. *)
Theorem full_undo_then_redo_leaves_flag_set (ds : list IFormData) :
  ds <> [] ->
  times (length ds) redo (times (length ds) undo (afterEdits ds)) =
  mkComponent ds (Z.of_nat (length ds) - 1) 0 true
              (mkFormGroup (last ds initialControls) false).
Proof.
  intros Hne.
  assert (Hk : (1 <= length ds)%nat).
  { destruct ds; [contradiction | cbn; lia]. }
  destruct (length ds) as [|j] eqn:Hlen; [lia|].
  destruct (undos_state ds (S j)) as (f & Hu & _ & Hs); [lia|].
  rewrite Hu, times_succ_last. rewrite <- Hlen.
  destruct (redos_within ds false (S j) j f) as (f' & Hr & Hs'); [lia|].
  rewrite Hlen at 2. rewrite Hr. unfold after.
  rewrite (redo_unsubscribed _ (last ds initialControls)); fields.
  - f_equal. lia.
  - lia.
  - rewrite Hs'. apply Hs; lia.
  - apply array_get_last, Hne.
Qed.

Lemma full_undo_then_redo_leaves_flag_set_witness :
  [snapA; snapB] <> [] /\
  times 2 redo (times 2 undo (afterEdits [snapA; snapB])) =
  mkComponent [snapA; snapB] 1 0 true (mkFormGroup snapB false).
Proof.
  split; [discriminate|].
  apply (full_undo_then_redo_leaves_flag_set [snapA; snapB]). discriminate.
Defined.

(** X11: redo walks forward.  After [k] recorded edits and [j <= k]
    undos, the [i]-th of [j] consecutive redos completes and shows the
    snapshot recorded at edit [k - j + i]. *)
Theorem redo_walks_forward (ds : list IFormData) (j i : nat) :
  (1 <= i <= j)%nat -> (j <= length ds)%nat ->
  let before := times (i - 1) redo (times j undo (afterEdits ds)) in
  completed (redo before) = true /\
  snapshot_at_edit ds (length ds - j + i) = Some (shown (after redo before)).
Proof.
  intros [Hi Hij] Hj before.
  destruct (undos_state ds j Hj) as (f & Hu & _).
  destruct (redos_within ds false j (i - 1) f) as (f' & Hr & _); [lia|].
  assert (Hb : before = mkComponent ds (Z.of_nat (length ds) - 1)
                          (Z.of_nat (j - (i - 1))) false f').
  { subst before. rewrite Hu. exact Hr. }
  set (x := nth (length ds - j + i - 1) ds initialControls).
  destruct (redo_shown before x) as [Hc Hx].
  - rewrite Hb. fields. rewrite Z.gtb_ltb.
    destruct (Z.ltb_spec 0 (Z.of_nat (j - (i - 1)) - 1)).
    + rewrite (array_get_in_bounds _ _ initialControls).
      * subst x. f_equal. f_equal. lia.
      * unfold in_bounds. lia.
    + rewrite (array_get_in_bounds _ _ initialControls).
      * subst x. f_equal. f_equal. lia.
      * unfold in_bounds. lia.
  - split; [exact Hc|]. rewrite Hx. subst x.
    destruct (length ds - j + i)%nat as [|m] eqn:Hm; [lia|].
    cbn [snapshot_at_edit]. rewrite Nat.sub_succ, Nat.sub_0_r.
    apply nth_error_nth'. lia.
Qed.

Lemma redo_walks_forward_witness :
  (1 <= 2 <= 3)%nat /\ (3 <= length [snapA; snapB; snapC])%nat /\
  snapshot_at_edit [snapA; snapB; snapC] 2 =
  Some (shown (after redo (times 1 redo
                  (times 3 undo (afterEdits [snapA; snapB; snapC]))))).
Proof.
  split; [lia|]. split; [cbn; lia|].
  apply (redo_walks_forward [snapA; snapB; snapC] 3 2); cbn; lia.
Defined.

(** X12: with nothing undone, every [redo] records the latest snapshot
    once more.  After [k >= 1] recorded edits, [n] redos leave the history
    with [n] copies of the latest edit appended, the cursor [n] further and
    the counter at [-n]; the form still shows the latest edit. *)
Theorem redo_with_nothing_undone_duplicates (ds : list IFormData) (n : nat) :
  ds <> [] ->
  formStateHistory (times n redo (afterEdits ds)) =
    ds ++ repeat (last ds initialControls) n /\
  currentHistoryIndex (times n redo (afterEdits ds)) =
    Z.of_nat (length ds) - 1 + Z.of_nat n /\
  undoRedoCounter (times n redo (afterEdits ds)) = - Z.of_nat n /\
  shown (times n redo (afterEdits ds)) = last ds initialControls.
Proof.
  intros Hne. rewrite redos_past_latest by exact Hne. repeat split.
Qed.

Lemma redo_with_nothing_undone_duplicates_witness :
  [snapA] <> [] /\
  formStateHistory (times 2 redo (afterEdits [snapA])) = [snapA; snapA; snapA].
Proof.
  split; [discriminate|].
  apply (redo_with_nothing_undone_duplicates [snapA] 2). discriminate.
Defined.

(** X13: after [k] recorded edits and [k + 1] undos, the next [redo]
    throws: it reads the history below index [0].  It leaves the history and
    the blank form as they are and takes the counter back to [k]. *)
Theorem redo_after_undo_past_earliest_throws (ds : list IFormData) :
  let this := times (S (length ds)) undo (afterEdits ds) in
  completed (redo this) = false /\
  formStateHistory (after redo this) = ds /\
  shown (after redo this) = initialControls /\
  undoRedoCounter (after redo this) = Z.of_nat (length ds).
Proof.
  intros this.
  assert (Hthis : this = mkComponent ds (Z.of_nat (length ds) - 1)
                           (Z.of_nat (length ds) + 1) false
                           (newFormGroup initialControls)).
  { subst this. rewrite times_succ_last. unfold after.
    rewrite undos_beyond by lia. reflexivity. }
  rewrite Hthis. unfold_methods. rewrite Z.gtb_ltb.
  destruct (Z.ltb_spec 0 (Z.of_nat (length ds) + 1 - 1)); cbn.
  - replace (Z.of_nat (length ds) - 1 - (Z.of_nat (length ds) + 1 - 1))
      with (-1) by lia.
    cbn. repeat split. lia.
  - assert (Hnil : ds = []) by (destruct ds; [reflexivity | cbn [length] in *; lia]).
    subst ds. cbn. repeat split.
Qed.

(** ** What undo and redo can show *)

(** X14: a completed [redo] always shows a snapshot that is in the
    history, and a completed [undo] shows one that is in the history or the
    blank initial record; nothing else ever reaches the form through them. *)
Theorem undo_redo_show_recorded_or_blank (o : Op) (this : MyFormComponent) :
  is_undo o || is_redo o = true ->
  completed (exec o this) = true ->
  In (shown (after (exec o) this)) (formStateHistory this)
  \/ (o = OpUndo /\ shown (after (exec o) this) = initialControls).
Proof.
  destruct this as [h i n b [v s]].
  destruct o; try discriminate; intros _; unfold_methods.
  - destruct (Z.leb_spec (n + 1) i); cbn; [|intros _; right; split; reflexivity].
    destruct (array_get h (i - (n + 1))) eqn:Hx; cbn; [|discriminate].
    apply nth_error_in_bounds in Hx. intros _. left.
    by_cases; exact Hx.
  - rewrite Z.gtb_ltb. destruct (Z.ltb_spec 0 (n - 1)); cbn.
    + destruct (array_get h (i - (n - 1))) eqn:Hx; cbn; [|discriminate].
      apply nth_error_in_bounds in Hx. intros _. left. by_cases; exact Hx.
    + destruct (array_get h i) eqn:Hx; cbn; [|discriminate].
      apply nth_error_in_bounds in Hx. intros _. left. by_cases; exact Hx.
Qed.

Lemma undo_redo_show_recorded_or_blank_witness :
  let this := afterEdits [snapA; snapB] in
  is_undo OpUndo || is_redo OpUndo = true /\
  completed (exec OpUndo this) = true /\
  (In (shown (after (exec OpUndo) this)) (formStateHistory this)
   \/ (OpUndo = OpUndo /\ shown (after (exec OpUndo) this) = initialControls)).
Proof.
  intros this. split; [reflexivity|]. split; [reflexivity|].
  apply (undo_redo_show_recorded_or_blank OpUndo this); reflexivity.
Defined.

(** ** The one-shot flag *)

(** X15: only [redo] sets [isLastRedoAction], and only on its
    non-positive branch.  If a call finds the flag clear and leaves it set,
    the call was a [redo] at a counter of at most [1], and either it threw,
    or the counter is now negative, or the form is not observed. *)
Theorem flag_left_set_only_by_redo (o : Op) (this : MyFormComponent) :
  isLastRedoAction this = false ->
  isLastRedoAction (after (exec o) this) = true ->
  o = OpRedo /\ undoRedoCounter this <= 1 /\
  (completed (exec o this) = false
   \/ undoRedoCounter (after (exec o) this) < 0
   \/ subscribed (form this) = false).
Proof.
  destruct this as [h i n b [v s]]. cbn. intros -> .
  destruct o; unfold_methods; by_cases; intros Hb; try discriminate;
    repeat split; try lia; auto; try (right; left; lia).
Qed.

Lemma flag_left_set_only_by_redo_witness :
  let this := afterEdits [snapA] in
  isLastRedoAction this = false /\
  isLastRedoAction (after (exec OpRedo) this) = true /\
  undoRedoCounter this <= 1.
Proof.
  intros this. split; [reflexivity|]. split; [reflexivity|].
  apply (flag_left_set_only_by_redo OpRedo this); reflexivity.
Defined.
